(** * MapView: layer composition, readiness gate, pulsing animation and
      pick resolution of [src/components/map/MapView.tsx]

    A shallow embedding of the React component [MapView].  JavaScript
    values that matter to the component are modelled explicitly:
    optional values with their truthiness, numbers as IEEE 754 binary64
    (Rocq's primitive floats), objects handed to React hooks with their
    identity, and exceptions as an error monad. *)

From Stdlib Require Import ZArith Bool String PrimFloat.
From Corelib Require FloatAxioms.
From stdpp Require Import base list.

Set Warnings "-inexact-float".

Local Open Scope string_scope.
Local Open Scope list_scope.

(** ** JavaScript values *)

(** A value that may be missing: a property with no entry reads as
    [undefined], and a caller may also store [null]. *)
Inductive Slot (A : Type) : Type :=
  | Undefined
  | Null
  | Present (a : A).

Arguments Undefined {A}.
Arguments Null {A}.
Arguments Present {A} a.

(** Truthiness of an optional object: objects are truthy, [undefined]
    and [null] are falsy. *)
Definition truthy {A : Type} (v : Slot A) : bool :=
  match v with
  | Present _ => true
  | Undefined | Null => false
  end.

(** Truthiness of an optional string: a string is truthy unless it is
    empty. *)
Definition truthy_string (v : option string) : bool :=
  match v with
  | Some s => negb (String.eqb s EmptyString)
  | None => false
  end.

(** [a || b] on optional strings. *)
Definition js_or (a b : option string) : option string :=
  if truthy_string a then a else b.

(** [a || null]: a falsy left operand yields [null]. *)
Definition js_or_null (a : option string) : option string :=
  if truthy_string a then a else None.

(** An object together with its identity, as [Object.is] sees it. *)
Record Obj (A : Type) : Type := mkObj { addr : nat; val : A }.

Arguments mkObj {A} addr val.
Arguments addr {A} o.
Arguments val {A} o.

(** ** Exceptions *)

Inductive Result (A : Type) : Type :=
  | Ok (a : A)
  | Throw (msg : string).

Arguments Ok {A} a.
Arguments Throw {A} msg.

Definition bind {A B : Type} (m : Result A) (k : A -> Result B) : Result B :=
  match m with
  | Ok a => k a
  | Throw msg => Throw msg
  end.

Notation "x <- m ;; k" := (bind m (fun x => k))
  (at level 100, m at next level, right associativity).

(** [deckLayers.push(l)] *)
Definition push {A : Type} (deckLayers : list A) (l : A) : list A :=
  deckLayers ++ [l].

(** ** Data model *)

(** The keys of [LayerToggleState], in declaration order. *)
Inductive LayerKind : Type :=
  | choropleth
  | conflict
  | foodDesert
  | infrastructure
  | tradeArcs
  | displacementArcs
  | heatmap.

#[global] Instance LayerKind_eq_dec : EqDecision LayerKind.
Proof. solve_decision. Defined.

(** The fixed declaration order of the kinds. *)
Definition canonical_order : list LayerKind :=
  [choropleth; conflict; foodDesert; infrastructure; tradeArcs;
   displacementArcs; heatmap].

(** [LayerToggleState]: one boolean per kind; [layerToggles k] reads
    [layerToggles.k]. *)
Definition LayerToggleState : Type := LayerKind -> bool.

(** The payload types of [@/lib/agents/schemas] and the reference
    geometry; the component never looks inside them. *)
Class Schemas : Type := {
  FeatureCollection : Type;
  GeopoliticsOutput : Type;
  EconomyOutput : Type;
  FoodSupplyOutput : Type;
  InfrastructureOutput : Type;
  CivilianImpactOutput : Type
}.

Module AgentResults.
Section Bundle.
Context `{Schemas}.

(** [AgentResults]: one optional output per domain. *)
Record t : Type := mk {
  geopolitics : Slot GeopoliticsOutput;
  economy : Slot EconomyOutput;
  food_supply : Slot FoodSupplyOutput;
  infrastructure : Slot InfrastructureOutput;
  civilian_impact : Slot CivilianImpactOutput
}.

(** The bundle with every domain output absent. *)
Definition empty : t := mk Undefined Undefined Undefined Undefined Undefined.
End Bundle.
End AgentResults.

(** ** Layer descriptors and their builders *)

Section Composer.
Context `{Schemas}.

(** Modelled from the spec: the descriptor a builder returns
    ([./layers/*Layer.ts] are not among the sources).  A descriptor
    is {kind, data payload, style parameters}; it is kept symbolic
    here: the constructor is the kind and the arguments are what the
    builder was given (the selection is the choropleth's highlight
    parameter, the pulsing intensity the conflict layer's radius
    scale). *)
Inductive LayerDescriptor : Type :=
  | ChoroplethLayer (geo : FeatureCollection) (results : AgentResults.t)
      (highlight : option string)
  | ConflictLayer (geopolitics : GeopoliticsOutput) (pulsing : float)
  | FoodDesertLayer (geo : FeatureCollection) (food : FoodSupplyOutput)
  | InfrastructureLayer (infra : InfrastructureOutput)
  | TradeArcLayer (economy : Slot EconomyOutput) (food : Slot FoodSupplyOutput)
  | DisplacementArcLayer (impact : CivilianImpactOutput)
  | HeatmapLayer (results : AgentResults.t).

Definition kind_of (d : LayerDescriptor) : LayerKind :=
  match d with
  | ChoroplethLayer _ _ _ => choropleth
  | ConflictLayer _ _ => conflict
  | FoodDesertLayer _ _ => foodDesert
  | InfrastructureLayer _ => infrastructure
  | TradeArcLayer _ _ => tradeArcs
  | DisplacementArcLayer _ => displacementArcs
  | HeatmapLayer _ => heatmap
  end.

(** Reading a declared input that is not there. *)
Definition missing_input {A : Type} (name : string) : Result A :=
  Throw ("TypeError: " ++ name ++ " is undefined").

(** Modelled from the spec: the seven builders of [./layers/], which
    are not among the sources.  Each is a pure function from its
    stated inputs to one descriptor and may assume that its declared
    inputs are present; it is taken at its worst here and throws
    when one of them is not.  The trade-arc builder tolerates either
    of its inputs being absent but not both; the choropleth and
    heatmap builders take the bundle as it is. *)
Definition createChoroplethLayer (countriesGeoJSON : Slot FeatureCollection)
    (agentResults : AgentResults.t) (selectedCountry : option string)
    : Result LayerDescriptor :=
  match countriesGeoJSON with
  | Present geo => Ok (ChoroplethLayer geo agentResults selectedCountry)
  | _ => missing_input "countriesGeoJSON"
  end.

Definition createConflictLayer (geopolitics : Slot GeopoliticsOutput)
    (pulsingRadius : float) : Result LayerDescriptor :=
  match geopolitics with
  | Present g => Ok (ConflictLayer g pulsingRadius)
  | _ => missing_input "geopolitics"
  end.

Definition createFoodDesertLayer (countriesGeoJSON : Slot FeatureCollection)
    (food_supply : Slot FoodSupplyOutput) : Result LayerDescriptor :=
  match countriesGeoJSON, food_supply with
  | Present geo, Present food => Ok (FoodDesertLayer geo food)
  | Present _, _ => missing_input "food_supply"
  | _, _ => missing_input "countriesGeoJSON"
  end.

Definition createInfrastructureLayer (infrastructure : Slot InfrastructureOutput)
    : Result LayerDescriptor :=
  match infrastructure with
  | Present i => Ok (InfrastructureLayer i)
  | _ => missing_input "infrastructure"
  end.

Definition createTradeArcLayer (economy : Slot EconomyOutput)
    (food_supply : Slot FoodSupplyOutput) : Result LayerDescriptor :=
  if truthy economy || truthy food_supply
  then Ok (TradeArcLayer economy food_supply)
  else missing_input "economy and food_supply".

Definition createDisplacementArcLayer (civilian_impact : Slot CivilianImpactOutput)
    : Result LayerDescriptor :=
  match civilian_impact with
  | Present c => Ok (DisplacementArcLayer c)
  | _ => missing_input "civilian_impact"
  end.

Definition createHeatmapLayer (agentResults : AgentResults.t)
    : Result LayerDescriptor :=
  Ok (HeatmapLayer agentResults).

(** Truthiness of the [agentResults] prop: it is a required prop of
    [MapViewProps], hence always an object, and objects are truthy. *)
Definition truthy_bundle (agentResults : AgentResults.t) : bool := true.

(** ** The composer: the body of [layers = useMemo(() => ...)] *)

Definition layers (layerToggles : LayerToggleState)
    (agentResults : AgentResults.t) (selectedCountry : option string)
    (countriesGeoJSON : Slot FeatureCollection) (pulsingRadius : float)
    : Result (list LayerDescriptor) :=
  let deckLayers := [] in
  deckLayers <-
    (if layerToggles choropleth && truthy countriesGeoJSON
     then l <- createChoroplethLayer countriesGeoJSON agentResults
                 selectedCountry ;;
          Ok (push deckLayers l)
     else Ok deckLayers) ;;
  deckLayers <-
    (if layerToggles conflict
        && truthy (AgentResults.geopolitics agentResults)
     then l <- createConflictLayer (AgentResults.geopolitics agentResults)
                 pulsingRadius ;;
          Ok (push deckLayers l)
     else Ok deckLayers) ;;
  deckLayers <-
    (if layerToggles foodDesert && truthy countriesGeoJSON
        && truthy (AgentResults.food_supply agentResults)
     then l <- createFoodDesertLayer countriesGeoJSON
                 (AgentResults.food_supply agentResults) ;;
          Ok (push deckLayers l)
     else Ok deckLayers) ;;
  deckLayers <-
    (if layerToggles infrastructure
        && truthy (AgentResults.infrastructure agentResults)
     then l <- createInfrastructureLayer
                 (AgentResults.infrastructure agentResults) ;;
          Ok (push deckLayers l)
     else Ok deckLayers) ;;
  deckLayers <-
    (if layerToggles tradeArcs
        && (truthy (AgentResults.economy agentResults)
            || truthy (AgentResults.food_supply agentResults))
     then l <- createTradeArcLayer (AgentResults.economy agentResults)
                 (AgentResults.food_supply agentResults) ;;
          Ok (push deckLayers l)
     else Ok deckLayers) ;;
  deckLayers <-
    (if layerToggles displacementArcs
        && truthy (AgentResults.civilian_impact agentResults)
     then l <- createDisplacementArcLayer
                 (AgentResults.civilian_impact agentResults) ;;
          Ok (push deckLayers l)
     else Ok deckLayers) ;;
  deckLayers <-
    (if layerToggles heatmap && truthy_bundle agentResults
     then l <- createHeatmapLayer agentResults ;;
          Ok (push deckLayers l)
     else Ok deckLayers) ;;
  Ok deckLayers.

(** ** The inclusion table of the design (section 4.3) *)

(** The data part of a kind's inclusion rule: the inputs the kind
    depends on are present. *)
Definition inputs_present (k : LayerKind) (agentResults : AgentResults.t)
    (countriesGeoJSON : Slot FeatureCollection) : bool :=
  match k with
  | choropleth => truthy countriesGeoJSON
  | conflict => truthy (AgentResults.geopolitics agentResults)
  | foodDesert =>
      truthy countriesGeoJSON && truthy (AgentResults.food_supply agentResults)
  | infrastructure => truthy (AgentResults.infrastructure agentResults)
  | tradeArcs =>
      truthy (AgentResults.economy agentResults)
      || truthy (AgentResults.food_supply agentResults)
  | displacementArcs => truthy (AgentResults.civilian_impact agentResults)
  | heatmap => true
  end.

(** A kind's inclusion rule: its toggle is true and its inputs are
    present. *)
Definition inclusion_rule (layerToggles : LayerToggleState)
    (agentResults : AgentResults.t)
    (countriesGeoJSON : Slot FeatureCollection) (k : LayerKind) : bool :=
  layerToggles k && inputs_present k agentResults countriesGeoJSON.

(** The descriptor of a kind, when the kind is included. *)
Definition table_entry (layerToggles : LayerToggleState)
    (agentResults : AgentResults.t) (selectedCountry : option string)
    (countriesGeoJSON : Slot FeatureCollection) (pulsingRadius : float)
    (k : LayerKind) : option LayerDescriptor :=
  if layerToggles k then
    match k with
    | choropleth =>
        match countriesGeoJSON with
        | Present geo => Some (ChoroplethLayer geo agentResults selectedCountry)
        | _ => None
        end
    | conflict =>
        match AgentResults.geopolitics agentResults with
        | Present g => Some (ConflictLayer g pulsingRadius)
        | _ => None
        end
    | foodDesert =>
        match countriesGeoJSON, AgentResults.food_supply agentResults with
        | Present geo, Present food => Some (FoodDesertLayer geo food)
        | _, _ => None
        end
    | infrastructure =>
        match AgentResults.infrastructure agentResults with
        | Present i => Some (InfrastructureLayer i)
        | _ => None
        end
    | tradeArcs =>
        if truthy (AgentResults.economy agentResults)
           || truthy (AgentResults.food_supply agentResults)
        then Some (TradeArcLayer (AgentResults.economy agentResults)
                     (AgentResults.food_supply agentResults))
        else None
    | displacementArcs =>
        match AgentResults.civilian_impact agentResults with
        | Present c => Some (DisplacementArcLayer c)
        | _ => None
        end
    | heatmap => Some (HeatmapLayer agentResults)
    end
  else None.

(** The composer as the design note describes it: the table of
    kinds iterated in the fixed declaration order. *)
Definition layers_table (layerToggles : LayerToggleState)
    (agentResults : AgentResults.t) (selectedCountry : option string)
    (countriesGeoJSON : Slot FeatureCollection) (pulsingRadius : float)
    : list LayerDescriptor :=
  omap (table_entry layerToggles agentResults selectedCountry
          countriesGeoJSON pulsingRadius) canonical_order.

End Composer.


(** ** Memoization of the composer: [useMemo(..., deps)] *)

(** A dependency of a hook, as React compares it. *)
Inductive Dep : Type :=
  | DepObject (a : nat)
  | DepUndefined
  | DepNull
  | DepString (s : string)
  | DepNumber (x : float).

(** [Object.is]: objects by identity, strings by content, numbers by
    value with [NaN] equal to itself and [+0] different from [-0]. *)
Definition Object_is (a b : Dep) : bool :=
  match a, b with
  | DepObject x, DepObject y => Nat.eqb x y
  | DepUndefined, DepUndefined => true
  | DepNull, DepNull => true
  | DepString s, DepString t => String.eqb s t
  | DepNumber x, DepNumber y => PrimFloat.Leibniz.eqb x y
  | _, _ => false
  end.

(** React's comparison of two dependency arrays. *)
Fixpoint areHookInputsEqual (nextDeps prevDeps : list Dep) : bool :=
  match nextDeps, prevDeps with
  | [], [] => true
  | a :: nextDeps', b :: prevDeps' =>
      Object_is a b && areHookInputsEqual nextDeps' prevDeps'
  | _, _ => false
  end.

Definition dep_of_string (s : option string) : Dep :=
  match s with
  | Some s => DepString s
  | None => DepNull
  end.

Definition dep_of_object {A : Type} (o : Slot (Obj A)) : Dep :=
  match o with
  | Present o => DepObject (addr o)
  | Undefined => DepUndefined
  | Null => DepNull
  end.

(** The content of an optional object. *)
Definition slot_val {A : Type} (o : Slot (Obj A)) : Slot A :=
  match o with
  | Present o => Present (val o)
  | Undefined => Undefined
  | Null => Null
  end.

Section Memo.
Context `{Schemas}.

(** The props of [MapView] that the composer reads, objects with
    their identity. *)
Record MapViewProps : Type := {
  agentResults : Obj AgentResults.t;
  selectedCountry : option string;
  layerToggles : Obj LayerToggleState;
  countriesGeoJSON : Slot (Obj FeatureCollection)
}.

(** The dependency array of the [useMemo] call. *)
Definition layers_deps (props : MapViewProps) (pulsingRadius : float)
    : list Dep :=
  [DepObject (addr (layerToggles props));
   DepObject (addr (agentResults props));
   dep_of_string (selectedCountry props);
   dep_of_object (countriesGeoJSON props);
   DepNumber pulsingRadius].

(** What the hook remembers between renders. *)
Record MemoCell : Type := {
  memo_value : list (Obj LayerDescriptor);
  memo_deps : list Dep
}.

(** The component instance: the hook's cell and the next free object
    identity. *)
Record Fiber : Type := {
  memoizedState : option MemoCell;
  next_addr : nat
}.

(** A freshly mounted instance. *)
Definition mount_fiber (next : nat) : Fiber :=
  {| memoizedState := None; next_addr := next |}.

(** Modelled from the spec: a builder constructs its descriptor, so
    every builder call returns a new object; the descriptors of one
    run of the composer get consecutive fresh identities. *)
Definition construct (next : nat) (descriptors : list LayerDescriptor)
    : list (Obj LayerDescriptor) :=
  zip_with mkObj (seq next (length descriptors)) descriptors.

(** Running the memoized function and storing its result. *)
Definition mountMemo (props : MapViewProps) (pulsingRadius : float)
    (fiber : Fiber) : Result (list (Obj LayerDescriptor) * Fiber) :=
  deckLayers <- layers (val (layerToggles props)) (val (agentResults props))
                  (selectedCountry props) (slot_val (countriesGeoJSON props))
                  pulsingRadius ;;
  let value := construct (next_addr fiber) deckLayers in
  Ok (value,
      {| memoizedState :=
           Some {| memo_value := value;
                   memo_deps := layers_deps props pulsingRadius |};
         next_addr := next_addr fiber + length deckLayers |}).

(** [useMemo]: the remembered value when no dependency changed, a new
    run of the function otherwise. *)
Definition useMemo (props : MapViewProps) (pulsingRadius : float)
    (fiber : Fiber) : Result (list (Obj LayerDescriptor) * Fiber) :=
  match memoizedState fiber with
  | Some cell =>
      if areHookInputsEqual (layers_deps props pulsingRadius) (memo_deps cell)
      then Ok (memo_value cell, fiber)
      else mountMemo props pulsingRadius fiber
  | None => mountMemo props pulsingRadius fiber
  end.

(** The descriptor objects of one kind in a composed list. *)
Definition descriptors_of (k : LayerKind) (value : list (Obj LayerDescriptor))
    : list (Obj LayerDescriptor) :=
  filter (fun d => kind_of (val d) = k) value.

End Memo.

(** ** Pulsing animation *)

(** [useState(1)] *)
Definition pulsingRadius_init : float := 1%float.

(** One call of [animate]: the updater given to [setPulsingRadius]. *)
Definition animate (prev : float) : float :=
  let next := (prev + 0.02)%float in
  if (1.2 <? next)%float then 0.8%float else next.

(** The pulsing scalar after [n] ticks. *)
Fixpoint pulsingRadius_after (n : nat) : float :=
  match n with
  | O => pulsingRadius_init
  | S n' => animate (pulsingRadius_after n')
  end.

(** Clamping at the upper bound, the behaviour the source does not
    have. *)
Definition animate_clamped (prev : float) : float :=
  let next := (prev + 0.02)%float in
  if (1.2 <? next)%float then 1.2%float else next.

(** ** Readiness gate *)

Record Container : Type := { clientWidth : Z; clientHeight : Z }.

(** [ready] is the state of [useState(false)]; [observing] tells that
    a [ResizeObserver] is connected to the container. *)
Record GateState : Type := { ready : bool; observing : bool }.

Definition gate_init : GateState := {| ready := false; observing := false |}.

Definition setReady (b : bool) (st : GateState) : GateState :=
  {| ready := b; observing := observing st |}.

(** [ro.observe(el)] *)
Definition observe (st : GateState) : GateState :=
  {| ready := ready st; observing := true |}.

(** [ro.disconnect()], the effect's cleanup. *)
Definition disconnect (st : GateState) : GateState :=
  {| ready := ready st; observing := false |}.

Definition has_size (el : Container) : bool :=
  (clientWidth el >? 0)%Z && (clientHeight el >? 0)%Z.

(** [check] of the effect. *)
Definition check (el : Container) (st : GateState) : GateState :=
  if has_size el then setReady true st else st.

(** The body of the effect; [ready st] is the [ready] of the render
    that scheduled it. *)
Definition effect (containerRef : option Container) (st : GateState)
    : GateState :=
  match containerRef with
  | None => st
  | Some el =>
      let st' := check el st in
      if negb (ready st) then observe st' else st'
  end.

(** The dependency array is [[ready]]: after a change of [ready] the
    cleanup runs and the effect runs again. *)
Definition commit (containerRef : option Container) (before after : GateState)
    : GateState :=
  if Bool.eqb (ready before) (ready after) then after
  else effect containerRef (disconnect after).

Inductive GateEvent : Type :=
  | Mount (containerRef : option Container)
  | Resize (el : Container).

Definition gate_step (st : GateState) (ev : GateEvent) : GateState :=
  match ev with
  | Mount containerRef => commit containerRef st (effect containerRef st)
  | Resize el =>
      if observing st then commit (Some el) st (check el st) else st
  end.

Definition gate_run (st : GateState) (evs : list GateEvent) : GateState :=
  fold_left gate_step evs st.

(** ** Interaction resolver *)

Record Properties : Type := { NAME : option string; ISO_A3 : option string }.
Record PickObject : Type := { properties : option Properties }.
Record PickInfo : Type := { object : option PickObject }.

(** Optional chaining [o?.f]. *)
Definition chain {A B : Type} (o : option A) (f : A -> option B) : option B :=
  match o with
  | Some a => f a
  | None => None
  end.

(** [info.object?.properties?.NAME] *)
Definition pick_NAME (info : PickInfo) : option string :=
  chain (chain (object info) properties) NAME.

(** [info.object?.properties?.ISO_A3] *)
Definition pick_ISO_A3 (info : PickInfo) : option string :=
  chain (chain (object info) properties) ISO_A3.

(** [getTooltip]: the label, [None] for [null]. *)
Definition getTooltip (info : PickInfo) : option string :=
  js_or_null (js_or (pick_NAME info) (pick_ISO_A3 info)).

(** [onClick]: the calls of [onCountryClick] it makes, in order. *)
Definition onClick (info : PickInfo) : list string :=
  if truthy_string (pick_ISO_A3 info) then
    match pick_ISO_A3 info with
    | Some iso3 => [iso3]
    | None => []
    end
  else [].

(** ** Vocabulary of the properties *)

Section Vocabulary.
Context `{Schemas}.

(** Two descriptors that agree except, for a choropleth descriptor, in
    the highlight parameter. *)
Definition same_but_highlight (d1 d2 : LayerDescriptor) : Prop :=
  match d1, d2 with
  | ChoroplethLayer geo1 results1 _, ChoroplethLayer geo2 results2 _ =>
      geo1 = geo2 /\ results1 = results2
  | _, _ => d1 = d2
  end.

(** Every descriptor object remembered by the hook was constructed
    before the next free identity. *)
Definition fiber_wf (fiber : Fiber) : Prop :=
  match memoizedState fiber with
  | Some cell => Forall (fun d => addr d < next_addr fiber) (memo_value cell)
  | None => True
  end.

(** The toggles [t2] differ from [t1] in the toggle of [k] only. *)
Definition toggled_only (k : LayerKind) (t1 t2 : LayerToggleState) : Prop :=
  t2 k = negb (t1 k) /\ forall k', k' <> k -> t2 k' = t1 k'.

(** The memoization property as the specification words it: after a
    first render, a render in which only a toggle other than the
    heatmap's changed returns the heatmap descriptor object of the
    first render. *)
Definition heatmap_descriptor_kept : Prop :=
  forall (props1 props2 : MapViewProps) (k : LayerKind) (pulsingRadius : float)
         (next : nat) (value1 value2 : list (Obj LayerDescriptor))
         (fiber1 fiber2 : Fiber),
    k <> heatmap ->
    toggled_only k (val (layerToggles props1)) (val (layerToggles props2)) ->
    agentResults props2 = agentResults props1 ->
    selectedCountry props2 = selectedCountry props1 ->
    countriesGeoJSON props2 = countriesGeoJSON props1 ->
    useMemo props1 pulsingRadius (mount_fiber next) = Ok (value1, fiber1) ->
    useMemo props2 pulsingRadius fiber1 = Ok (value2, fiber2) ->
    descriptors_of heatmap value2 = descriptors_of heatmap value1.

End Vocabulary.

(** Payload types for concrete examples: every payload is a name. *)
Definition named_schemas : Schemas :=
  {| FeatureCollection := string;
     GeopoliticsOutput := string;
     EconomyOutput := string;
     FoodSupplyOutput := string;
     InfrastructureOutput := string;
     CivilianImpactOutput := string |}.

Definition all_on : LayerToggleState := fun _ => true.

(** [all_on] with the toggle of [k] switched off. *)
Definition switch_off (k : LayerKind) (t : LayerToggleState) : LayerToggleState :=
  fun k' => if decide (k' = k) then false else t k'.

(** A bundle in which only the geopolitics output has arrived. *)
Definition geopolitics_only : AgentResults.t (H := named_schemas) :=
  @AgentResults.mk named_schemas
    (Present "unrest") Undefined Undefined Undefined Undefined.

(** A bundle in which only the economy output has arrived. *)
Definition economy_only : AgentResults.t (H := named_schemas) :=
  @AgentResults.mk named_schemas
    Undefined (Present "tariffs") Undefined Undefined Undefined.

(** Props of a first render: every toggle on. *)
Definition props_first : MapViewProps (H := named_schemas) :=
  {| agentResults := mkObj 1 geopolitics_only;
     selectedCountry := None;
     layerToggles := mkObj 2 all_on;
     countriesGeoJSON := Undefined |}.

(** Props of the next render: the parent replaced the toggle object by
    one with the conflict toggle off; nothing else changed. *)
Definition props_second : MapViewProps (H := named_schemas) :=
  {| agentResults := mkObj 1 geopolitics_only;
     selectedCountry := None;
     layerToggles := mkObj 3 (switch_off conflict all_on);
     countriesGeoJSON := Undefined |}.

(** The instance after the first render of [props_first], mounted
    with 0 as the next free identity. *)
Definition fiber_first : Fiber (H := named_schemas) :=
  {| memoizedState :=
       Some {| memo_value :=
                 [mkObj 0 (ConflictLayer (H := named_schemas) "unrest" 1%float);
                  mkObj 1 (HeatmapLayer geopolitics_only)];
               memo_deps := layers_deps props_first 1%float |};
     next_addr := 2 |}.

(** A container that has not been laid out, and one that has. *)
Definition no_layout : Container := {| clientWidth := 0; clientHeight := 0 |}.
Definition laid_out : Container := {| clientWidth := 800; clientHeight := 600 |}.

(** A picked feature whose display name is the empty string. *)
Definition unnamed_pick : PickInfo :=
  {| object := Some {| properties :=
       Some {| NAME := Some EmptyString; ISO_A3 := Some "USA" |} |} |}.

(** A picked feature whose region identifier is the empty string. *)
Definition anonymous_pick : PickInfo :=
  {| object := Some {| properties :=
       Some {| NAME := None; ISO_A3 := Some EmptyString |} |} |}.

(** A picked feature with a display name and a region identifier,
    and a pick that hit nothing. *)
Definition france_pick : PickInfo :=
  {| object := Some {| properties :=
       Some {| NAME := Some "France"; ISO_A3 := Some "FRA" |} |} |}.
Definition empty_pick : PickInfo := {| object := None |}.

(** ** Map style *)

Definition MAPTILER_STYLE : string :=
  "https://api.maptiler.com/maps/dataviz-dark/style.json?key=".

Definition CARTO_STYLE : string :=
  "https://basemaps.cartocdn.com/gl/dark-matter-gl-style/style.json".

(** [MAP_STYLE], as a function of [process.env.NEXT_PUBLIC_MAPTILER_KEY]:
    the condition of [?:] is the truthiness of the key. *)
Definition MAP_STYLE (NEXT_PUBLIC_MAPTILER_KEY : option string) : string :=
  match NEXT_PUBLIC_MAPTILER_KEY with
  | Some key =>
      if truthy_string (Some key) then MAPTILER_STYLE ++ key else CARTO_STYLE
  | None => CARTO_STYLE
  end.

(** ** The animation loop and its cancellation *)

(** [pulsing] is the state [pulsingRadius]; [animationFrame] is the
    variable of the effect, unassigned until the first request;
    [scheduled] holds the handles of the callbacks the browser has
    still to call. *)
Record AnimationLoop : Type := {
  pulsing : float;
  animationFrame : option nat;
  scheduled : list nat;
  next_handle : nat
}.

(** [requestAnimationFrame(animate)]: a new handle, scheduled for the
    next frame. *)
Definition requestAnimationFrame (st : AnimationLoop) : nat * AnimationLoop :=
  (next_handle st,
   {| pulsing := pulsing st;
      animationFrame := animationFrame st;
      scheduled := scheduled st ++ [next_handle st];
      next_handle := S (next_handle st) |}).

(** [cancelAnimationFrame(handle)]: nothing for an unassigned or
    unknown handle. *)
Definition cancelAnimationFrame (handle : option nat) (st : AnimationLoop)
    : AnimationLoop :=
  match handle with
  | Some h =>
      {| pulsing := pulsing st;
         animationFrame := animationFrame st;
         scheduled := List.filter (fun h' => negb (Nat.eqb h' h)) (scheduled st);
         next_handle := next_handle st |}
  | None => st
  end.

(** The function [animate] of the effect: update the scalar, then
    request the next frame and keep its handle. *)
Definition animate_loop (st : AnimationLoop) : AnimationLoop :=
  let st1 := {| pulsing := animate (pulsing st);
                animationFrame := animationFrame st;
                scheduled := scheduled st;
                next_handle := next_handle st |} in
  let (handle, st2) := requestAnimationFrame st1 in
  {| pulsing := pulsing st2;
     animationFrame := Some handle;
     scheduled := scheduled st2;
     next_handle := next_handle st2 |}.

(** The effect at mount: [animate()] is called at once. *)
Definition animation_mount (next : nat) : AnimationLoop :=
  animate_loop {| pulsing := pulsingRadius_init;
                  animationFrame := None;
                  scheduled := [];
                  next_handle := next |}.

(** The cleanup of the effect. *)
Definition animation_cleanup (st : AnimationLoop) : AnimationLoop :=
  cancelAnimationFrame (animationFrame st) st.

(** One frame of the browser: every callback that was scheduled
    before the frame is called once. *)
Definition browser_frame (st : AnimationLoop) : AnimationLoop :=
  fold_left (fun st' _ => animate_loop st') (scheduled st)
    {| pulsing := pulsing st;
       animationFrame := animationFrame st;
       scheduled := [];
       next_handle := next_handle st |}.

(** The loop after the mount and [n] frames. *)
Definition animation_after (next n : nat) : AnimationLoop :=
  Nat.iter n browser_frame (animation_mount next).

(** The pulsing scalar is within its bounds. *)
Definition in_pulse_range (x : float) : bool :=
  ((0.8 <=? x) && (x <=? 1.2))%float.

(** ** Further vocabulary *)

(** The container an event of the gate looks at, if any. *)
Definition event_container (ev : GateEvent) : option Container :=
  match ev with
  | Mount containerRef => containerRef
  | Resize el => Some el
  end.

Section FurtherVocabulary.
Context `{Schemas}.

(** Two descriptors that agree except, for a conflict descriptor, in
    the pulsing parameter. *)
Definition same_but_pulsing (d1 d2 : LayerDescriptor) : Prop :=
  match d1, d2 with
  | ConflictLayer g1 _, ConflictLayer g2 _ => g1 = g2
  | _, _ => d1 = d2
  end.

(** The descriptors of a list whose kind is not [k]. *)
Definition without_kind (k : LayerKind) (l : list LayerDescriptor)
    : list LayerDescriptor :=
  List.filter (fun d => if decide (kind_of d = k) then false else true) l.

(** What the composer returns for the props of a render. *)
Definition layers_of_props (props : MapViewProps) (pulsingRadius : float)
    : Result (list LayerDescriptor) :=
  layers (val (layerToggles props)) (val (agentResults props))
    (selectedCountry props) (slot_val (countriesGeoJSON props)) pulsingRadius.

(** The cell holds what the composer returned for [props]. *)
Definition cell_of (cell : MemoCell) (props : MapViewProps)
    (pulsingRadius : float) : Prop :=
  memo_deps cell = layers_deps props pulsingRadius
  /\ layers_of_props props pulsingRadius = Ok (map val (memo_value cell)).

(** No object of [props0] was mutated in place to make [props]: an
    object of the same identity has the same content. *)
Definition unmutated (props0 props : MapViewProps) : Prop :=
  (addr (layerToggles props) = addr (layerToggles props0) ->
   forall k, val (layerToggles props) k = val (layerToggles props0) k)
  /\ (addr (agentResults props) = addr (agentResults props0) ->
      val (agentResults props) = val (agentResults props0))
  /\ (forall o o0,
        countriesGeoJSON props = Present o ->
        countriesGeoJSON props0 = Present o0 ->
        addr o = addr o0 -> val o = val o0).






End FurtherVocabulary.


(** * Properties of the composer *)

Section ComposerProperties.
Context `{Schemas}.
Implicit Types (t : LayerToggleState) (r : AgentResults.t)
  (s : option string) (g : Slot FeatureCollection) (p : float).

Lemma omap_canonical_order {A : Type} (f : LayerKind -> option A) :
  omap f canonical_order =
  ((((((([] ++ option_list (f choropleth)) ++ option_list (f conflict))
        ++ option_list (f foodDesert)) ++ option_list (f infrastructure))
      ++ option_list (f tradeArcs)) ++ option_list (f displacementArcs))
    ++ option_list (f heatmap)).
Proof.
  unfold canonical_order; cbn.
  destruct (f choropleth), (f conflict), (f foodDesert), (f infrastructure),
    (f tradeArcs), (f displacementArcs), (f heatmap); reflexivity.
Qed.

(** One guarded [push] of the composer agrees with the table entry of
    its kind. *)
Lemma stage_choropleth t r s g p (acc : list LayerDescriptor) :
  (if t choropleth && truthy g
   then l <- createChoroplethLayer g r s ;; Ok (push acc l)
   else Ok acc)
  = Ok (acc ++ option_list (table_entry t r s g p choropleth)).
Proof.
  unfold table_entry, push.
  destruct (t choropleth), g; cbn; rewrite ?app_nil_r; reflexivity.
Qed.

Lemma stage_conflict t r s g p (acc : list LayerDescriptor) :
  (if t conflict && truthy (AgentResults.geopolitics r)
   then l <- createConflictLayer (AgentResults.geopolitics r) p ;;
        Ok (push acc l)
   else Ok acc)
  = Ok (acc ++ option_list (table_entry t r s g p conflict)).
Proof.
  unfold table_entry, push.
  destruct (t conflict), (AgentResults.geopolitics r); cbn;
    rewrite ?app_nil_r; reflexivity.
Qed.

Lemma stage_foodDesert t r s g p (acc : list LayerDescriptor) :
  (if t foodDesert && truthy g && truthy (AgentResults.food_supply r)
   then l <- createFoodDesertLayer g (AgentResults.food_supply r) ;;
        Ok (push acc l)
   else Ok acc)
  = Ok (acc ++ option_list (table_entry t r s g p foodDesert)).
Proof.
  unfold table_entry, push.
  destruct (t foodDesert), g, (AgentResults.food_supply r); cbn;
    rewrite ?app_nil_r; reflexivity.
Qed.

Lemma stage_infrastructure t r s g p (acc : list LayerDescriptor) :
  (if t infrastructure && truthy (AgentResults.infrastructure r)
   then l <- createInfrastructureLayer (AgentResults.infrastructure r) ;;
        Ok (push acc l)
   else Ok acc)
  = Ok (acc ++ option_list (table_entry t r s g p infrastructure)).
Proof.
  unfold table_entry, push.
  destruct (t infrastructure), (AgentResults.infrastructure r); cbn;
    rewrite ?app_nil_r; reflexivity.
Qed.

Lemma stage_tradeArcs t r s g p (acc : list LayerDescriptor) :
  (if t tradeArcs
      && (truthy (AgentResults.economy r)
          || truthy (AgentResults.food_supply r))
   then l <- createTradeArcLayer (AgentResults.economy r)
               (AgentResults.food_supply r) ;;
        Ok (push acc l)
   else Ok acc)
  = Ok (acc ++ option_list (table_entry t r s g p tradeArcs)).
Proof.
  unfold table_entry, push, createTradeArcLayer.
  destruct (t tradeArcs), (AgentResults.economy r),
    (AgentResults.food_supply r); cbn; rewrite ?app_nil_r; reflexivity.
Qed.

Lemma stage_displacementArcs t r s g p (acc : list LayerDescriptor) :
  (if t displacementArcs && truthy (AgentResults.civilian_impact r)
   then l <- createDisplacementArcLayer (AgentResults.civilian_impact r) ;;
        Ok (push acc l)
   else Ok acc)
  = Ok (acc ++ option_list (table_entry t r s g p displacementArcs)).
Proof.
  unfold table_entry, push.
  destruct (t displacementArcs), (AgentResults.civilian_impact r); cbn;
    rewrite ?app_nil_r; reflexivity.
Qed.

Lemma stage_heatmap t r s g p (acc : list LayerDescriptor) :
  (if t heatmap && truthy_bundle r
   then l <- createHeatmapLayer r ;; Ok (push acc l)
   else Ok acc)
  = Ok (acc ++ option_list (table_entry t r s g p heatmap)).
Proof.
  unfold table_entry, push.
  destruct (t heatmap); cbn; rewrite ?app_nil_r; reflexivity.
Qed.

(** The sequence of conditional pushes computes the table iterated in
    declaration order, and never throws. *)
Lemma layers_table_correct t r s g p :
  layers t r s g p = Ok (layers_table t r s g p).
Proof.
  unfold layers, layers_table.
  rewrite omap_canonical_order.
  rewrite (stage_choropleth t r s g p); cbn [bind].
  rewrite (stage_conflict t r s g p); cbn [bind].
  rewrite (stage_foodDesert t r s g p); cbn [bind].
  rewrite (stage_infrastructure t r s g p); cbn [bind].
  rewrite (stage_tradeArcs t r s g p); cbn [bind].
  rewrite (stage_displacementArcs t r s g p); cbn [bind].
  rewrite (stage_heatmap t r s g p); cbn [bind].
  reflexivity.
Qed.

(** A table entry is a descriptor of its own kind, and exists exactly
    when the inclusion rule of the kind holds. *)
Lemma table_entry_rule t r s g p (k : LayerKind) :
  match table_entry t r s g p k with
  | Some d => kind_of d = k /\ inclusion_rule t r g k = true
  | None => inclusion_rule t r g k = false
  end.
Proof.
  unfold table_entry, inclusion_rule.
  destruct (t k); [| reflexivity].
  destruct k; cbn.
  - destruct g; auto.
  - destruct (AgentResults.geopolitics r); auto.
  - destruct g, (AgentResults.food_supply r); auto.
  - destruct (AgentResults.infrastructure r); auto.
  - destruct (truthy (AgentResults.economy r)
              || truthy (AgentResults.food_supply r)); auto.
  - destruct (AgentResults.civilian_impact r); auto.
  - auto.
Qed.

Lemma kinds_omap_table t r s g p (ks : list LayerKind) :
  map kind_of (omap (table_entry t r s g p) ks)
  = List.filter (inclusion_rule t r g) ks.
Proof.
  induction ks as [| k ks IH]; [reflexivity |].
  cbn. pose proof (table_entry_rule t r s g p k) as Hk.
  destruct (table_entry t r s g p k) as [d |].
  - destruct Hk as [Hd ->]. cbn. rewrite Hd. f_equal. exact IH.
  - rewrite Hk. exact IH.
Qed.

(** The kinds of the composed list: the canonical order filtered by
    the inclusion rule. *)
Lemma kinds_layers_table t r s g p :
  map kind_of (layers_table t r s g p)
  = List.filter (inclusion_rule t r g) canonical_order.
Proof. apply kinds_omap_table. Qed.

Lemma bool_filter_sublist {A : Type} (f : A -> bool) (l : list A) :
  sublist (List.filter f l) l.
Proof.
  induction l as [| x l IH]; cbn.
  - constructor.
  - destruct (f x); constructor; exact IH.
Qed.

Lemma canonical_order_NoDup : NoDup canonical_order.
Proof.
  unfold canonical_order. apply NoDup_ListNoDup.
  repeat constructor; cbn; intuition discriminate.
Qed.

Lemma In_kinds_layers_table t r s g p (k : LayerKind) :
  In k (map kind_of (layers_table t r s g p))
  <-> inclusion_rule t r g k = true.
Proof.
  rewrite kinds_layers_table, filter_In.
  split; [tauto |].
  intros Hk. split; [| exact Hk].
  unfold canonical_order. destruct k; cbn; tauto.
Qed.

Lemma In_layers_table t r s g p (d : LayerDescriptor) :
  In d (layers_table t r s g p)
  <-> table_entry t r s g p (kind_of d) = Some d.
Proof.
  unfold layers_table. rewrite <- list_elem_of_In, list_elem_of_omap.
  split.
  - intros (k & _ & Hk).
    pose proof (table_entry_rule t r s g p k) as Hr.
    rewrite Hk in Hr. destruct Hr as [<- _]. exact Hk.
  - intros Hd. exists (kind_of d). split; [| exact Hd].
    apply list_elem_of_In. unfold canonical_order.
    destruct (kind_of d); cbn; tauto.
Qed.

(** C1: for every toggle state, result bundle, selection, reference
    geometry and pulsing intensity, the composer returns a list with
    at most one descriptor per kind whose kinds appear in the fixed
    declaration order (choropleth, conflict, foodDesert,
    infrastructure, tradeArcs, displacementArcs, heatmap), whichever
    subset of kinds is present: the kinds are the canonical order with
    the excluded kinds left out. *)
Theorem layers_one_per_kind_in_canonical_order t r s g p :
  exists l : list LayerDescriptor,
    layers t r s g p = Ok l
    /\ NoDup (map kind_of l)
    /\ sublist (map kind_of l) canonical_order
    /\ map kind_of l = List.filter (inclusion_rule t r g) canonical_order.
Proof.
  exists (layers_table t r s g p).
  split; [apply layers_table_correct |].
  assert (Hsub : sublist (map kind_of (layers_table t r s g p)) canonical_order).
  { rewrite kinds_layers_table. apply bool_filter_sublist. }
  split; [| split].
  - eapply sublist_NoDup; [apply canonical_order_NoDup | exact Hsub].
  - exact Hsub.
  - apply kinds_layers_table.
Qed.

(** C2: a kind is in the composed list if and only if its inclusion
    rule holds: choropleth iff toggle and geometry; conflict iff
    toggle and geopolitics output; foodDesert iff toggle, geometry and
    food-supply output; infrastructure iff toggle and infrastructure
    output; tradeArcs iff toggle and at least one of the economy and
    food-supply outputs, its descriptor being built from both values
    as they are (absent for the missing one); displacementArcs iff
    toggle and civilian-impact output. *)
Theorem layers_inclusion_iff_rule t r s g p :
  exists l : list LayerDescriptor,
    layers t r s g p = Ok l
    /\ (In choropleth (map kind_of l)
        <-> t choropleth = true /\ truthy g = true)
    /\ (In conflict (map kind_of l)
        <-> t conflict = true /\ truthy (AgentResults.geopolitics r) = true)
    /\ (In foodDesert (map kind_of l)
        <-> t foodDesert = true /\ truthy g = true
            /\ truthy (AgentResults.food_supply r) = true)
    /\ (In infrastructure (map kind_of l)
        <-> t infrastructure = true
            /\ truthy (AgentResults.infrastructure r) = true)
    /\ (In tradeArcs (map kind_of l)
        <-> t tradeArcs = true
            /\ (truthy (AgentResults.economy r) = true
                \/ truthy (AgentResults.food_supply r) = true))
    /\ (In displacementArcs (map kind_of l)
        <-> t displacementArcs = true
            /\ truthy (AgentResults.civilian_impact r) = true)
    /\ (forall d, In d l -> kind_of d = tradeArcs ->
          d = TradeArcLayer (AgentResults.economy r)
                (AgentResults.food_supply r)).
Proof.
  exists (layers_table t r s g p).
  split; [apply layers_table_correct |].
  repeat (split; [rewrite In_kinds_layers_table; unfold inclusion_rule; cbn;
                   rewrite ?andb_true_iff, ?orb_true_iff; tauto |]).
  intros d Hin Hk. apply In_layers_table in Hin. rewrite Hk in Hin.
  unfold table_entry in Hin.
  destruct (t tradeArcs); [| discriminate].
  destruct (truthy (AgentResults.economy r)
            || truthy (AgentResults.food_supply r)); [| discriminate].
  congruence.
Qed.

End ComposerProperties.

(** The example of the specification: with [tradeArcs] toggled on, the
    economy output present and the food-supply output absent, the
    trade-arc layer is included and its builder receives the absent
    food-supply value. *)
Lemma layers_trade_arcs_economy_only :
  layers all_on economy_only None Undefined 1%float
  = Ok [TradeArcLayer (H := named_schemas) (Present "tariffs") Undefined;
        HeatmapLayer economy_only].
Proof. reflexivity. Qed.

Section TotalityProperties.
Context `{Schemas}.
Implicit Types (t : LayerToggleState) (r : AgentResults.t)
  (s : option string) (g : Slot FeatureCollection) (p : float).

(** A builder returns a descriptor only when its declared inputs are
    there. *)
Lemma builders_need_their_inputs r s g p (d : LayerDescriptor) :
  (createChoroplethLayer g r s = Ok d -> truthy g = true)
  /\ (createConflictLayer (AgentResults.geopolitics r) p = Ok d ->
      truthy (AgentResults.geopolitics r) = true)
  /\ (createFoodDesertLayer g (AgentResults.food_supply r) = Ok d ->
      truthy g = true /\ truthy (AgentResults.food_supply r) = true)
  /\ (createInfrastructureLayer (AgentResults.infrastructure r) = Ok d ->
      truthy (AgentResults.infrastructure r) = true)
  /\ (createTradeArcLayer (AgentResults.economy r)
        (AgentResults.food_supply r) = Ok d ->
      truthy (AgentResults.economy r) = true
      \/ truthy (AgentResults.food_supply r) = true)
  /\ (createDisplacementArcLayer (AgentResults.civilian_impact r) = Ok d ->
      truthy (AgentResults.civilian_impact r) = true).
Proof.
  unfold createTradeArcLayer.
  destruct g, (AgentResults.geopolitics r), (AgentResults.food_supply r),
    (AgentResults.infrastructure r), (AgentResults.economy r),
    (AgentResults.civilian_impact r); cbn;
    repeat split; (discriminate || auto).
Qed.

(** C5: composition is total over partially populated inputs: for
    every bundle, with any outputs absent or null, and for absent
    geometry, the composer returns a list and does not throw, although
    every builder throws when called without a declared input; a kind
    whose toggle is true is omitted only when an input it depends on
    is absent, and every descriptor in the list was built with the
    inputs of its kind present. *)
Theorem layers_total_on_partial_inputs t r s g p :
  exists l : list LayerDescriptor,
    layers t r s g p = Ok l
    /\ (forall k, t k = true -> ~ In k (map kind_of l) ->
          inputs_present k r g = false)
    /\ (forall k, t k = true -> inputs_present k r g = true ->
          In k (map kind_of l))
    /\ (forall d, In d l -> inputs_present (kind_of d) r g = true).
Proof.
  exists (layers_table t r s g p).
  split; [apply layers_table_correct |].
  split; [| split].
  - intros k Ht Hout.
    rewrite In_kinds_layers_table in Hout. unfold inclusion_rule in Hout.
    rewrite Ht in Hout. cbn in Hout.
    destruct (inputs_present k r g); [congruence | reflexivity].
  - intros k Ht Hin. apply In_kinds_layers_table. unfold inclusion_rule.
    rewrite Ht, Hin. reflexivity.
  - intros d Hd.
    assert (Hk : In (kind_of d) (map kind_of (layers_table t r s g p)))
      by (apply in_map; exact Hd).
    apply In_kinds_layers_table in Hk. unfold inclusion_rule in Hk.
    apply andb_prop in Hk. tauto.
Qed.

(** With every output and the geometry absent the list holds at most
    the heatmap descriptor. *)
Lemma layers_nothing_available t s p :
  layers t AgentResults.empty s Undefined p
  = Ok (if t heatmap then [HeatmapLayer AgentResults.empty] else []).
Proof.
  rewrite layers_table_correct. unfold layers_table.
  rewrite omap_canonical_order. unfold table_entry. cbn.
  destruct (t choropleth), (t conflict), (t foodDesert), (t infrastructure),
    (t tradeArcs), (t displacementArcs), (t heatmap); reflexivity.
Qed.

Lemma table_entry_ext t1 t2 r s g p (k : LayerKind) :
  t1 k = t2 k -> table_entry t1 r s g p k = table_entry t2 r s g p k.
Proof. unfold table_entry. intros ->. reflexivity. Qed.

Lemma table_entry_selection t r s1 s2 g p (k : LayerKind) :
  match table_entry t r s1 g p k, table_entry t r s2 g p k with
  | Some d1, Some d2 => same_but_highlight d1 d2
  | None, None => True
  | _, _ => False
  end.
Proof.
  unfold table_entry.
  destruct (t k); [| exact I].
  destruct k; cbn.
  - destruct g; cbn; auto.
  - destruct (AgentResults.geopolitics r); cbn; auto.
  - destruct g, (AgentResults.food_supply r); cbn; auto.
  - destruct (AgentResults.infrastructure r); cbn; auto.
  - destruct (truthy (AgentResults.economy r)
              || truthy (AgentResults.food_supply r)); cbn; auto.
  - destruct (AgentResults.civilian_impact r); cbn; auto.
  - reflexivity.
Qed.

(** C8: when two inputs differ only in the selection, the two lists
    have the same descriptors position by position, except that the
    choropleth descriptors may differ in their highlight parameter. *)
Theorem layers_selection_changes_highlight_only t r s1 s2 g p :
  exists l1 l2 : list LayerDescriptor,
    layers t r s1 g p = Ok l1
    /\ layers t r s2 g p = Ok l2
    /\ Forall2 same_but_highlight l1 l2
    /\ (forall d, kind_of d <> choropleth -> In d l1 <-> In d l2).
Proof.
  exists (layers_table t r s1 g p), (layers_table t r s2 g p).
  split; [apply layers_table_correct |].
  split; [apply layers_table_correct |].
  split.
  - unfold layers_table.
    induction canonical_order as [| k ks IH]; cbn; [constructor |].
    pose proof (table_entry_selection t r s1 s2 g p k) as Hk.
    destruct (table_entry t r s1 g p k), (table_entry t r s2 g p k);
      try contradiction; [constructor; assumption | assumption].
  - intros d Hd. rewrite !In_layers_table.
    unfold table_entry. destruct (t (kind_of d)); [| tauto].
    destruct (kind_of d); [contradiction | tauto ..].
Qed.

(** C10: the heatmap's inclusion depends on its toggle alone: for
    every bundle, the all-absent one included, the list holds the
    heatmap descriptor built from the bundle exactly when the heatmap
    toggle is true. *)
Theorem layers_heatmap_iff_toggle t r s g p :
  exists l : list LayerDescriptor,
    layers t r s g p = Ok l
    /\ (In heatmap (map kind_of l) <-> t heatmap = true)
    /\ (In (HeatmapLayer r) l <-> t heatmap = true)
    /\ (exists l0, layers t AgentResults.empty s g p = Ok l0
        /\ (In (HeatmapLayer AgentResults.empty) l0 <-> t heatmap = true)).
Proof.
  assert (Hheat : forall r',
    In (HeatmapLayer r') (layers_table t r' s g p) <-> t heatmap = true).
  { intros r'. rewrite In_layers_table. unfold table_entry. cbn.
    destruct (t heatmap); split; congruence. }
  exists (layers_table t r s g p).
  split; [apply layers_table_correct |].
  split; [| split].
  - rewrite In_kinds_layers_table. unfold inclusion_rule. cbn.
    rewrite andb_true_r. reflexivity.
  - apply Hheat.
  - exists (layers_table t AgentResults.empty s g p).
    split; [apply layers_table_correct | apply Hheat].
Qed.

End TotalityProperties.

(** * Properties of the memoization *)

Section MemoProperties.
Context `{Schemas}.

Lemma construct_fresh (next : nat) (l : list LayerDescriptor) :
  Forall (fun d => next <= addr d < next + length l) (construct next l).
Proof.
  unfold construct. revert next.
  induction l as [| x l IH]; intros next; cbn; constructor.
  - cbn. lia.
  - eapply Forall_impl; [apply (IH (S next)) |].
    cbn. intros d Hd. lia.
Qed.

Lemma construct_val (next : nat) (l : list LayerDescriptor) :
  map val (construct next l) = l.
Proof.
  unfold construct. revert next.
  induction l as [| x l IH]; intros next; cbn; [reflexivity |].
  f_equal. apply IH.
Qed.

(** A run of the memoized function constructs every descriptor of its
    list. *)
Lemma mountMemo_fresh (props : MapViewProps) (pulsingRadius : float)
    (fiber : Fiber) :
  exists value fiber',
    mountMemo props pulsingRadius fiber = Ok (value, fiber')
    /\ Forall (fun d => next_addr fiber <= addr d < next_addr fiber') value
    /\ memoizedState fiber'
       = Some {| memo_value := value;
                 memo_deps := layers_deps props pulsingRadius |}
    /\ map val value
       = layers_table (val (layerToggles props)) (val (agentResults props))
           (selectedCountry props) (slot_val (countriesGeoJSON props))
           pulsingRadius.
Proof.
  unfold mountMemo. rewrite layers_table_correct. cbn [bind].
  eexists _, _. split; [reflexivity |]. cbn.
  split; [apply construct_fresh |].
  split; [reflexivity | apply construct_val].
Qed.

(** Replacing the toggle object changes the dependency array. *)
Lemma toggles_replaced_deps_differ (props1 props2 : MapViewProps)
    (pulse1 pulse2 : float) :
  addr (layerToggles props2) <> addr (layerToggles props1) ->
  areHookInputsEqual (layers_deps props2 pulse2) (layers_deps props1 pulse1)
  = false.
Proof.
  intros Hne. unfold layers_deps. cbn.
  apply Nat.eqb_neq in Hne. rewrite Hne. reflexivity.
Qed.

Lemma mount_fiber_wf (next : nat) : fiber_wf (mount_fiber next).
Proof. exact I. Qed.

(** C9, amended: the composed list is memoized as a whole on its five
    inputs.  A render whose dependencies are all identical to the
    remembered ones returns the remembered list, descriptor objects
    included, and constructs nothing; a render in which any dependency
    changed runs the composer again, and every descriptor object of
    the new list is newly constructed, the heatmap descriptor (present
    when its toggle is true) among them; replacing the toggle object,
    as a change of any toggle does, is such a change. *)
Theorem useMemo_recomputes_whole_list (fiber : Fiber) (cell : MemoCell)
    (props : MapViewProps) (pulsingRadius : float) :
  fiber_wf fiber ->
  memoizedState fiber = Some cell ->
  exists value fiber',
    useMemo props pulsingRadius fiber = Ok (value, fiber')
    /\ fiber_wf fiber'
    /\ (areHookInputsEqual (layers_deps props pulsingRadius) (memo_deps cell)
        = true ->
        value = memo_value cell /\ fiber' = fiber)
    /\ (areHookInputsEqual (layers_deps props pulsingRadius) (memo_deps cell)
        = false ->
        (forall d d0, In d value -> In d0 (memo_value cell) ->
           addr d <> addr d0)
        /\ (val (layerToggles props) heatmap = true ->
            exists d, In d (descriptors_of heatmap value)
                      /\ val d = HeatmapLayer (val (agentResults props))))
    /\ (forall props0 pulse0,
          memo_deps cell = layers_deps props0 pulse0 ->
          addr (layerToggles props) <> addr (layerToggles props0) ->
          areHookInputsEqual (layers_deps props pulsingRadius) (memo_deps cell)
          = false).
Proof.
  intros Hwf Hcell.
  assert (Hrepl : forall props0 pulse0,
    memo_deps cell = layers_deps props0 pulse0 ->
    addr (layerToggles props) <> addr (layerToggles props0) ->
    areHookInputsEqual (layers_deps props pulsingRadius) (memo_deps cell)
    = false).
  { intros props0 pulse0 -> Hne. apply toggles_replaced_deps_differ, Hne. }
  unfold useMemo. rewrite Hcell.
  destruct (areHookInputsEqual (layers_deps props pulsingRadius)
              (memo_deps cell)) eqn:Hdeps.
  - exists (memo_value cell), fiber.
    repeat split; try assumption; discriminate.
  - destruct (mountMemo_fresh props pulsingRadius fiber)
      as (value & fiber' & Hrun & Hfresh & Hstate & Hval).
    exists value, fiber'. split; [exact Hrun |].
    split; [| split; [discriminate | split; [intros _ | exact Hrepl]]].
    + unfold fiber_wf. rewrite Hstate. cbn.
      eapply Forall_impl; [exact Hfresh |]. cbn. intros d Hd. lia.
    + split.
      * intros d d0 Hd Hd0.
        unfold fiber_wf in Hwf. rewrite Hcell in Hwf.
        rewrite Forall_forall in Hwf, Hfresh.
        apply list_elem_of_In in Hd, Hd0.
        specialize (Hwf d0 Hd0). specialize (Hfresh d Hd). cbn in *. lia.
      * intros Hon.
        assert (Hin : In (HeatmapLayer (val (agentResults props)))
                        (map val value)).
        { rewrite Hval. apply In_layers_table. unfold table_entry. cbn.
          rewrite Hon. reflexivity. }
        apply in_map_iff in Hin. destruct Hin as (d & Hd & Hin).
        exists d. split; [| exact Hd].
        unfold descriptors_of. apply list_elem_of_In, list_elem_of_filter.
        split; [rewrite Hd; reflexivity | apply list_elem_of_In, Hin].
Qed.

End MemoProperties.

(** The well-formedness and the cell of [fiber_first], and the second
    render of the example: the composer runs again. *)
Lemma useMemo_recomputes_whole_list_witness :
  fiber_wf fiber_first
  /\ exists value fiber',
       useMemo props_second 1%float fiber_first = Ok (value, fiber')
       /\ fiber_wf fiber'.
Proof.
  assert (Hwf : fiber_wf fiber_first).
  { unfold fiber_wf, fiber_first. cbn. repeat constructor. }
  split; [exact Hwf |].
  destruct (useMemo_recomputes_whole_list fiber_first _ props_second 1%float
              Hwf eq_refl) as (value & fiber' & Hrun & Hwf' & _).
  exists value, fiber'. split; assumption.
Defined.

Lemma useMemo_first_render :
  useMemo props_first 1%float (mount_fiber 0)
  = Ok (match memoizedState fiber_first with
        | Some cell => memo_value cell
        | None => []
        end, fiber_first).
Proof. vm_compute. reflexivity. Qed.

Lemma useMemo_second_render :
  useMemo props_second 1%float fiber_first
  = Ok ([mkObj 2 (HeatmapLayer geopolitics_only)],
        {| memoizedState :=
             Some {| memo_value := [mkObj 2 (HeatmapLayer geopolitics_only)];
                     memo_deps := layers_deps props_second 1%float |};
           next_addr := 3 |}).
Proof. vm_compute. reflexivity. Qed.

(** C9 as stated fails: after the conflict toggle alone is switched
    off, the heatmap descriptor of the new list is a new object
    (identity 2), not the one of the previous list (identity 1). *)
Lemma heatmap_descriptor_rebuilt_counterexample :
  ~ heatmap_descriptor_kept (H := named_schemas).
Proof.
  intros Hkept.
  assert (Hk : conflict <> heatmap) by discriminate.
  assert (Htog : toggled_only conflict (val (layerToggles props_first))
                   (val (layerToggles props_second))).
  { split; [reflexivity |].
    intros k' Hk'. cbn. unfold switch_off.
    destruct (decide (k' = conflict)); [contradiction | reflexivity]. }
  pose proof (Hkept props_first props_second conflict 1%float 0 _ _ _ _
                Hk Htog eq_refl eq_refl eq_refl
                useMemo_first_render useMemo_second_render) as Hsame.
  vm_compute in Hsame. discriminate Hsame.
Qed.

(** * Properties of the pulsing animation *)

(** The constants of [animate] are the binary64 numbers nearest to
    the decimal literals of the source. *)
Lemma animate_constants :
  (0.02 = 0x1.47ae147ae147bp-6)%float
  /\ (1.2 = 0x1.3333333333333p+0)%float
  /\ (0.8 = 0x1.999999999999ap-1)%float
  /\ animate 1%float = 0x1.051eb851eb852p+0%float.
Proof. repeat split. Qed.

(** The values of the first ten ticks, as binary64 numbers. *)
Lemma pulsingRadius_first_ticks :
  map pulsingRadius_after (seq 0 11)
  = [1; 1.02; 1.04; 1.0600000000000001; 1.0800000000000001;
     1.1000000000000001; 1.1200000000000001; 1.1400000000000001;
     1.1600000000000001; 1.1800000000000002; 0.8]%float.
Proof. vm_compute. reflexivity. Qed.

(** After the first reset the ramp repeats every 20 ticks. *)
Lemma pulsingRadius_period (n : nat) :
  pulsingRadius_after (10 + n + 20) = pulsingRadius_after (10 + n).
Proof.
  induction n as [| n IH].
  - vm_compute. reflexivity.
  - replace (10 + S n + 20) with (S (10 + n + 20)) by lia.
    replace (10 + S n) with (S (10 + n)) by lia.
    cbn [pulsingRadius_after]. rewrite IH. reflexivity.
Qed.

(** C3 as stated fails: in binary64 arithmetic the sum after ten
    additions of 0.02 is 1.2000000000000002, which exceeds 1.2, so the
    tenth tick already resets the scalar to 0.8; its value after ten
    ticks is not 1.2. *)
Lemma pulsing_tenth_tick_counterexample :
  pulsingRadius_after 10 = 0.8%float
  /\ pulsingRadius_after 10 <> 1.2%float.
Proof.
  split; [vm_compute; reflexivity |].
  intros Heq.
  pose proof (f_equal (fun x => PrimFloat.Leibniz.eqb x 1.2%float) Heq) as Hb.
  vm_compute in Hb. discriminate Hb.
Qed.

(** C3, amended: the pulsing scalar starts at 1.0 and advances by 0.02
    per tick in binary64 arithmetic; after nine ticks its value is
    1.1800000000000002, the incremented value 1.2000000000000002
    exceeds 1.2, and the tenth tick resets the scalar to 0.8
    (wraparound, where clamping would give 1.2); from then on the ramp
    repeats every 20 ticks. *)
Theorem pulsing_wraps_on_tenth_tick :
  pulsingRadius_after 0 = 1%float
  /\ (forall n, n < 9 ->
        pulsingRadius_after (S n) = (pulsingRadius_after n + 0.02)%float)
  /\ pulsingRadius_after 9 = 1.1800000000000002%float
  /\ (pulsingRadius_after 9 + 0.02)%float = 1.2000000000000002%float
  /\ (1.2 <? pulsingRadius_after 9 + 0.02)%float = true
  /\ pulsingRadius_after 10 = 0.8%float
  /\ animate_clamped (pulsingRadius_after 9) = 1.2%float
  /\ (forall n, pulsingRadius_after (10 + n + 20) = pulsingRadius_after (10 + n)).
Proof.
  split; [reflexivity |].
  split.
  { intros n Hn.
    do 9 (destruct n as [| n]; [vm_compute; reflexivity |]). lia. }
  repeat (split; [vm_compute; reflexivity |]).
  apply pulsingRadius_period.
Qed.

(** * Properties of the readiness gate *)

Lemma check_ready (el : Container) (st : GateState) :
  ready (check el st) = ready st || has_size el.
Proof.
  unfold check. destruct (has_size el); cbn.
  - rewrite orb_true_r. reflexivity.
  - rewrite orb_false_r. reflexivity.
Qed.

Lemma effect_keeps_ready (containerRef : option Container) (st : GateState) :
  ready st = true -> ready (effect containerRef st) = true.
Proof.
  intros Hr. unfold effect. destruct containerRef as [el |]; [| exact Hr].
  rewrite Hr. cbn. rewrite check_ready, Hr. reflexivity.
Qed.

(** No step leaves READY. *)
Lemma gate_step_keeps_ready (st : GateState) (ev : GateEvent) :
  ready st = true -> ready (gate_step st ev) = true.
Proof.
  intros Hr. destruct ev as [containerRef | el]; cbn.
  - unfold commit.
    rewrite Hr, (effect_keeps_ready containerRef st Hr). cbn.
    apply effect_keeps_ready, Hr.
  - destruct (observing st); [| exact Hr].
    unfold commit. rewrite check_ready, Hr. cbn.
    rewrite check_ready, Hr. reflexivity.
Qed.

(** A layout notification while waiting: READY exactly when the
    container has a size, and still observing otherwise. *)
Lemma gate_step_waiting (st : GateState) (el : Container) :
  ready st = false -> observing st = true ->
  ready (gate_step st (Resize el)) = has_size el
  /\ (has_size el = false -> gate_step st (Resize el) = st).
Proof.
  intros Hr Ho. cbn. rewrite Ho. unfold commit, check.
  destruct (has_size el) eqn:Hsize; cbn.
  - rewrite Hr. cbn. unfold check. rewrite Hsize. cbn.
    split; [reflexivity | discriminate].
  - rewrite Hr. cbn. auto.
Qed.

Lemma gate_run_resizes (st : GateState) (els : list Container) :
  (ready st = false -> observing st = true) ->
  ready (gate_run st (map Resize els)) = ready st || existsb has_size els.
Proof.
  revert st. induction els as [| el els IH]; intros st Hinv.
  - cbn. rewrite orb_false_r. reflexivity.
  - cbn [map gate_run fold_left existsb].
    destruct (ready st) eqn:Hr.
    + change (fold_left gate_step (map Resize els) (gate_step st (Resize el)))
        with (gate_run (gate_step st (Resize el)) (map Resize els)).
      rewrite IH.
      * rewrite (gate_step_keeps_ready st (Resize el) Hr). reflexivity.
      * rewrite (gate_step_keeps_ready st (Resize el) Hr). discriminate.
    + destruct (gate_step_waiting st el Hr (Hinv eq_refl)) as [Hstep Hsame].
      change (fold_left gate_step (map Resize els) (gate_step st (Resize el)))
        with (gate_run (gate_step st (Resize el)) (map Resize els)).
      destruct (has_size el) eqn:Hsize.
      * rewrite IH; [rewrite Hstep; reflexivity |].
        rewrite Hstep. discriminate.
      * rewrite (Hsame eq_refl).
        rewrite IH by (intros _; apply Hinv; reflexivity).
        rewrite Hr. reflexivity.
Qed.

(** C4: the readiness gate is monotonic.  It starts not ready; after
    the mount and any number of layout notifications it is READY
    exactly when one of the observations so far (the check at mount or
    a notification) saw both width and height greater than zero; and
    from a READY state every sequence of later steps, notifications of
    a zero size included, ends in a READY state. *)
Theorem gate_ready_is_terminal :
  ready gate_init = false
  /\ (forall (el0 : Container) (els : list Container),
        ready (gate_run gate_init (Mount (Some el0) :: map Resize els))
        = existsb has_size (el0 :: els))
  /\ (forall (st : GateState) (evs : list GateEvent),
        ready st = true -> ready (gate_run st evs) = true)
  /\ ready (gate_run gate_init
              [Mount (Some no_layout); Resize no_layout; Resize laid_out;
               Resize no_layout]) = true.
Proof.
  split; [reflexivity |].
  split; [| split; [| reflexivity]].
  - intros el0 els.
    cbn [gate_run fold_left existsb].
    change (fold_left gate_step (map Resize els)
              (gate_step gate_init (Mount (Some el0))))
      with (gate_run (gate_step gate_init (Mount (Some el0)))
              (map Resize els)).
    assert (Hmount : ready (gate_step gate_init (Mount (Some el0)))
                     = has_size el0
                     /\ (has_size el0 = false ->
                         observing (gate_step gate_init (Mount (Some el0)))
                         = true)).
    { cbn. unfold commit, check. destruct (has_size el0) eqn:Hsize; cbn.
      - unfold check. rewrite Hsize. cbn. split; [reflexivity | discriminate].
      - split; reflexivity. }
    destruct Hmount as [Hready Hobs].
    rewrite gate_run_resizes.
    + rewrite Hready. reflexivity.
    + rewrite Hready. exact Hobs.
  - intros st evs. revert st.
    induction evs as [| ev evs IH]; intros st Hr; [exact Hr |].
    cbn. apply IH, gate_step_keeps_ready, Hr.
Qed.

(** * Properties of the interaction resolver *)

Lemma truthy_string_Some (s : string) :
  truthy_string (Some s) = true <-> s <> EmptyString.
Proof.
  cbn. destruct (String.eqb_spec s EmptyString) as [-> | Hne]; cbn.
  - split; [discriminate | congruence].
  - split; [intros _; exact Hne | reflexivity].
Qed.

(** C6 as stated fails on empty strings: a pick result that carries
    an empty display name and the identifier USA is labelled USA, not
    with its name; and a click on a pick result that carries an empty
    identifier emits no event. *)
Lemma pick_empty_string_counterexample :
  pick_NAME unnamed_pick = Some EmptyString
  /\ getTooltip unnamed_pick = Some "USA"
  /\ getTooltip unnamed_pick <> pick_NAME unnamed_pick
  /\ pick_ISO_A3 anonymous_pick = Some EmptyString
  /\ onClick anonymous_pick = [].
Proof.
  repeat split; try reflexivity. cbn. discriminate.
Qed.

(** C6, amended: if the pick result carries a non-empty display name
    the hover label is that name; otherwise, if it carries a non-empty
    region identifier the label is the identifier; otherwise there is
    no label.  A click emits exactly one region-click event, carrying
    the identifier, if and only if the pick result carries a non-empty
    region identifier; otherwise it emits nothing. *)
Theorem pick_resolution (info : PickInfo) :
  (forall name, pick_NAME info = Some name -> name <> EmptyString ->
     getTooltip info = Some name)
  /\ (forall iso3,
        (pick_NAME info = None \/ pick_NAME info = Some EmptyString) ->
        pick_ISO_A3 info = Some iso3 -> iso3 <> EmptyString ->
        getTooltip info = Some iso3)
  /\ ((pick_NAME info = None \/ pick_NAME info = Some EmptyString) ->
      (pick_ISO_A3 info = None \/ pick_ISO_A3 info = Some EmptyString) ->
      getTooltip info = None)
  /\ (forall iso3,
        onClick info = [iso3]
        <-> pick_ISO_A3 info = Some iso3 /\ iso3 <> EmptyString)
  /\ ((pick_ISO_A3 info = None \/ pick_ISO_A3 info = Some EmptyString) <->
      onClick info = []).
Proof.
  unfold getTooltip, onClick, js_or, js_or_null.
  destruct (pick_NAME info) as [name |], (pick_ISO_A3 info) as [iso |]; cbn.
  all: repeat match goal with
       | |- context [String.eqb ?s EmptyString] =>
           destruct (String.eqb_spec s EmptyString); subst; cbn
       end.
  all: repeat split; intros;
       repeat match goal with
       | Hx : _ \/ _ |- _ => destruct Hx
       | Hx : _ /\ _ |- _ => destruct Hx
       end; try congruence; auto.
Qed.

(** * Further properties of the readiness gate *)

Lemma gate_run_snoc (st : GateState) (evs : list GateEvent) (ev : GateEvent) :
  gate_run st (evs ++ [ev]) = gate_step (gate_run st evs) ev.
Proof. unfold gate_run. rewrite fold_left_app. reflexivity. Qed.

(** A READY state never has an observer connected: the step that
    makes the gate READY runs the cleanup. *)
Lemma gate_step_disconnects (st : GateState) (ev : GateEvent) :
  (ready st = true -> observing st = false) ->
  ready (gate_step st ev) = true -> observing (gate_step st ev) = false.
Proof.
  destruct st as [r o]. cbn. intros Hinv.
  destruct ev as [[el |] | el]; cbn; unfold commit, effect, check; cbn;
    try destruct (has_size el) eqn:Hsize; destruct r, o; cbn;
    unfold commit, effect, check; cbn; rewrite ?Hsize; cbn;
    auto; discriminate.
Qed.

Lemma gate_reachable_disconnected (evs : list GateEvent) :
  ready (gate_run gate_init evs) = true ->
  observing (gate_run gate_init evs) = false.
Proof.
  induction evs as [| ev evs IH] using rev_ind.
  - cbn. discriminate.
  - rewrite gate_run_snoc. apply gate_step_disconnects, IH.
Qed.

(** X1: in every state the gate can reach from its initial state,
    READY is absorbing: the resize observer is disconnected, and no
    further event, mount or layout notification, changes the state. *)
Theorem gate_ready_is_absorbing (evs : list GateEvent) (ev : GateEvent) :
  ready (gate_run gate_init evs) = true ->
  observing (gate_run gate_init evs) = false
  /\ gate_step (gate_run gate_init evs) ev = gate_run gate_init evs.
Proof.
  intros Hr. pose proof (gate_reachable_disconnected evs Hr) as Ho.
  split; [exact Ho |].
  destruct (gate_run gate_init evs) as [r o]. cbn in Hr, Ho. subst r o.
  destruct ev as [[el |] | el]; cbn; try reflexivity.
  unfold commit, effect, check. cbn.
  destruct (has_size el); reflexivity.
Qed.

Lemma gate_ready_is_absorbing_witness :
  gate_step (gate_run gate_init [Mount (Some no_layout); Resize laid_out])
    (Resize no_layout)
  = gate_run gate_init [Mount (Some no_layout); Resize laid_out].
Proof.
  apply (gate_ready_is_absorbing [Mount (Some no_layout); Resize laid_out]).
  reflexivity.
Defined.


Lemma gate_step_ready_needs_size (st : GateState) (ev : GateEvent) :
  ready (gate_step st ev) = true ->
  ready st = true
  \/ exists el, event_container ev = Some el /\ has_size el = true.
Proof.
  destruct st as [r o]. destruct r; [left; reflexivity |].
  destruct ev as [[el |] | el]; cbn; unfold commit, effect, check; cbn.
  - destruct (has_size el) eqn:Hsize; cbn; [| discriminate].
    intros _. right. exists el. auto.
  - discriminate.
  - destruct o; cbn; [| discriminate].
    unfold commit, effect, check.
    destruct (has_size el) eqn:Hsize; cbn; [| discriminate].
    intros _. right. exists el. auto.
Qed.

Lemma gate_run_ready_needs_size (evs : list GateEvent) (st : GateState) :
  ready (gate_run st evs) = true ->
  ready st = true
  \/ exists ev el,
       In ev evs /\ event_container ev = Some el /\ has_size el = true.
Proof.
  revert st. induction evs as [| ev evs IH]; intros st Hr; [left; exact Hr |].
  cbn in Hr. destruct (IH _ Hr) as [Hstep | (ev' & el & Hin & Hc & Hs)].
  - destruct (gate_step_ready_needs_size st ev Hstep)
      as [Hst | (el & Hc & Hs)]; [left; exact Hst |].
    right. exists ev, el. cbn. auto.
  - right. exists ev', el. cbn. auto.
Qed.

(** X3: the rendering surface is guarded: whatever events arrive, in
    whatever order, the gate is READY only if some event looked at a
    container whose width and height were both greater than zero. *)
Theorem gate_ready_needs_size (evs : list GateEvent) :
  ready (gate_run gate_init evs) = true ->
  exists ev el,
    In ev evs /\ event_container ev = Some el /\ has_size el = true.
Proof.
  intros Hr.
  destruct (gate_run_ready_needs_size evs gate_init Hr) as [Hinit | Hex];
    [discriminate Hinit | exact Hex].
Qed.

Lemma gate_ready_needs_size_witness :
  exists ev el,
    In ev [Mount None; Mount (Some no_layout); Resize laid_out]
    /\ event_container ev = Some el /\ has_size el = true.
Proof.
  apply (gate_ready_needs_size
           [Mount None; Mount (Some no_layout); Resize laid_out]).
  reflexivity.
Defined.

(** * Further properties of the interaction resolver *)

Lemma js_or_null_truthy (a label : option string) :
  js_or_null a = label -> label = None \/ (label = a /\ truthy_string a = true).
Proof.
  unfold js_or_null. destruct (truthy_string a); intros <-; auto.
Qed.

(** X7: the hover label is never the empty string: [getTooltip]
    returns either no label or a non-empty string, which is the
    display name of the picked feature or, when that name is missing
    or empty, its region identifier. *)
Theorem getTooltip_label_nonempty (info : PickInfo) :
  getTooltip info = None
  \/ exists label,
       getTooltip info = Some label
       /\ label <> EmptyString
       /\ (pick_NAME info = Some label
           \/ (pick_ISO_A3 info = Some label
               /\ truthy_string (pick_NAME info) = false)).
Proof.
  unfold getTooltip.
  destruct (js_or_null_truthy (js_or (pick_NAME info) (pick_ISO_A3 info))
              _ eq_refl) as [Hnone | [Heq Htruthy]];
    [left; exact Hnone |].
  right. rewrite Heq. unfold js_or in *.
  destruct (truthy_string (pick_NAME info)) eqn:Hname.
  - destruct (pick_NAME info) as [name |]; [| discriminate].
    exists name. apply truthy_string_Some in Hname. auto.
  - destruct (pick_ISO_A3 info) as [iso3 |]; [| discriminate].
    exists iso3. apply truthy_string_Some in Htruthy. auto.
Qed.

(** X8: a click emits at most one event, never with an empty
    identifier, and whatever can be clicked has a hover label: when
    [onClick] emits the identifier of a feature, [getTooltip] labels
    the same feature, with that identifier or with its display
    name. *)
Theorem onClick_event_has_label (info : PickInfo) (iso3 : string) :
  In iso3 (onClick info) ->
  onClick info = [iso3]
  /\ iso3 <> EmptyString
  /\ exists label,
       getTooltip info = Some label
       /\ (label = iso3 \/ pick_NAME info = Some label).
Proof.
  unfold onClick, getTooltip, js_or.
  destruct (truthy_string (pick_ISO_A3 info)) eqn:Hiso; [| contradiction].
  destruct (pick_ISO_A3 info) as [iso |]; [| discriminate].
  intros [-> | []].
  split; [reflexivity |].
  split; [apply truthy_string_Some, Hiso |].
  destruct (truthy_string (pick_NAME info)) eqn:Hname.
  - destruct (pick_NAME info) as [name |]; [| discriminate].
    exists name. unfold js_or_null. rewrite Hname. auto.
  - exists iso3. unfold js_or_null. rewrite Hiso. auto.
Qed.

Lemma onClick_event_has_label_witness :
  onClick france_pick = ["FRA"]
  /\ "FRA" <> EmptyString
  /\ exists label,
       getTooltip france_pick = Some label
       /\ (label = "FRA" \/ pick_NAME france_pick = Some label).
Proof.
  apply (onClick_event_has_label france_pick "FRA").
  left. reflexivity.
Defined.

(** X9: a pick that hit nothing, or a feature without properties,
    yields no label and no click event: the optional chaining stops
    at the missing object. *)
Theorem pick_without_properties (info : PickInfo) :
  chain (object info) properties = None ->
  getTooltip info = None /\ onClick info = [].
Proof.
  unfold getTooltip, onClick, pick_NAME, pick_ISO_A3.
  intros ->. split; reflexivity.
Qed.

Lemma pick_without_properties_witness :
  getTooltip empty_pick = None /\ onClick empty_pick = [].
Proof.
  apply (pick_without_properties empty_pick). reflexivity.
Defined.

(** * Properties of the map style *)

Lemma append_inv_head (s a b : string) :
  (s ++ a)%string = (s ++ b)%string -> a = b.
Proof.
  induction s as [| c s IH]; cbn; [auto |].
  intros Heq. apply IH. congruence.
Qed.

(** X15: the map style is the public CARTO style exactly when the
    MapTiler key is unset or empty; a non-empty key gives the MapTiler
    style URL that ends in the key, and different keys give different
    URLs. *)
Theorem MAP_STYLE_by_key (key : option string) :
  (MAP_STYLE key = CARTO_STYLE <-> truthy_string key = false)
  /\ (forall k, key = Some k -> k <> EmptyString ->
        MAP_STYLE key = (MAPTILER_STYLE ++ k)%string)
  /\ (forall key', truthy_string key = true -> truthy_string key' = true ->
        MAP_STYLE key = MAP_STYLE key' -> key = key').
Proof.
  split; [| split].
  - destruct key as [k |]; cbn; [| tauto].
    destruct (String.eqb k EmptyString); cbn; [tauto |].
    split; [discriminate | discriminate].
  - intros k -> Hk. cbn. apply truthy_string_Some in Hk.
    cbn in Hk. rewrite Hk. reflexivity.
  - intros [k' |] Hk Hk'; [| discriminate].
    destruct key as [k |]; [| discriminate].
    unfold MAP_STYLE. rewrite Hk, Hk'.
    intros Heq. apply append_inv_head in Heq. congruence.
Qed.

(** * Further properties of the pulsing animation *)

Lemma pulsingRadius_after_mod (n : nat) :
  pulsingRadius_after (10 + n) = pulsingRadius_after (10 + n mod 20).
Proof.
  induction n as [n IH] using lt_wf_ind.
  destruct (Nat.lt_ge_cases n 20) as [Hlt | Hge].
  - rewrite Nat.mod_small by exact Hlt. reflexivity.
  - replace n with ((n - 20) + 1 * 20) at 2 by lia.
    rewrite Nat.Div0.mod_add, <- IH by lia.
    replace (10 + n) with (10 + (n - 20) + 20) by lia.
    apply pulsingRadius_period.
Qed.

(** Every value of the scalar, and its successor, occur within the
    first 30 ticks. *)
Lemma pulsingRadius_after_small (n : nat) :
  exists i, i < 30
    /\ pulsingRadius_after n = pulsingRadius_after i
    /\ pulsingRadius_after (S n) = pulsingRadius_after (S i).
Proof.
  assert (Hi : exists i, i < 30
                 /\ pulsingRadius_after n = pulsingRadius_after i).
  { destruct (Nat.lt_ge_cases n 10) as [Hlt | Hge].
    - exists n. split; [lia | reflexivity].
    - exists (10 + (n - 10) mod 20). split.
      + pose proof (Nat.mod_upper_bound (n - 10) 20). lia.
      + replace n with (10 + (n - 10)) at 1 by lia.
        apply pulsingRadius_after_mod. }
  destruct Hi as (i & Hlt & Heq). exists i.
  split; [exact Hlt |]. split; [exact Heq |].
  cbn [pulsingRadius_after]. rewrite Heq. reflexivity.
Qed.

(** X4: the pulsing scalar stays within its bounds: after any number
    of ticks its value is at least 0.8 and at most 1.2. *)
Theorem pulsingRadius_in_range (n : nat) :
  in_pulse_range (pulsingRadius_after n) = true.
Proof.
  destruct (pulsingRadius_after_small n) as (i & Hlt & -> & _).
  assert (Hall : forallb (fun i => in_pulse_range (pulsingRadius_after i))
                   (seq 0 30) = true) by (vm_compute; reflexivity).
  rewrite forallb_forall in Hall. apply Hall, in_seq. lia.
Qed.

(** No tick leaves the scalar where it was. *)
Lemma pulsingRadius_tick_changes (n : nat) :
  PrimFloat.Leibniz.eqb (pulsingRadius_after (S n)) (pulsingRadius_after n)
  = false.
Proof.
  destruct (pulsingRadius_after_small n) as (i & Hlt & -> & ->).
  assert (Hall : forallb
                   (fun i => negb (PrimFloat.Leibniz.eqb
                                     (pulsingRadius_after (S i))
                                     (pulsingRadius_after i)))
                   (seq 0 30) = true) by (vm_compute; reflexivity).
  rewrite forallb_forall in Hall.
  apply negb_true_iff, Hall, in_seq. lia.
Qed.

(** * The animation loop *)

Lemma animation_after_state (next n : nat) :
  animation_after next n
  = {| pulsing := pulsingRadius_after (S n);
       animationFrame := Some (next + n);
       scheduled := [next + n];
       next_handle := S (next + n) |}.
Proof.
  unfold animation_after.
  induction n as [| n IH].
  - cbn. rewrite Nat.add_0_r. reflexivity.
  - rewrite Nat.iter_succ, IH. cbn.
    unfold animate_loop. cbn.
    replace (next + S n) with (S (next + n)) by lia. reflexivity.
Qed.

Lemma idle_frames (st : AnimationLoop) (m : nat) :
  scheduled st = [] -> Nat.iter m browser_frame st = st.
Proof.
  intros Hidle. induction m as [| m IH]; [reflexivity |].
  rewrite Nat.iter_succ, IH. unfold browser_frame. rewrite Hidle.
  destruct st. cbn in *. subst. reflexivity.
Qed.

(** X6: the animation loop keeps exactly one frame request pending,
    the one whose handle the effect holds, and each frame advances the
    scalar by one tick (the first tick happens at mount); the cleanup
    cancels that request, after which no frame changes anything: no
    tick is delivered after teardown. *)
Theorem animation_loop_cancelled (next n m : nat) :
  scheduled (animation_after next n) = [next + n]
  /\ animationFrame (animation_after next n) = Some (next + n)
  /\ pulsing (animation_after next n) = pulsingRadius_after (S n)
  /\ scheduled (animation_cleanup (animation_after next n)) = []
  /\ Nat.iter m browser_frame (animation_cleanup (animation_after next n))
     = animation_cleanup (animation_after next n).
Proof.
  rewrite animation_after_state. cbn.
  assert (Hidle : scheduled
                    (animation_cleanup
                       {| pulsing := animate (pulsingRadius_after n);
                          animationFrame := Some (next + n);
                          scheduled := [next + n];
                          next_handle := S (next + n) |}) = []).
  { cbn. rewrite Nat.eqb_refl. reflexivity. }
  repeat (split; [reflexivity |]).
  split; [exact Hidle | apply idle_frames, Hidle].
Qed.

(** * Further properties of the composer *)

Section ComposerFrames.
Context `{Schemas}.
Implicit Types (t : LayerToggleState) (r : AgentResults.t)
  (s : option string) (g : Slot FeatureCollection) (p : float).

Lemma table_entry_kind t r s g p (k : LayerKind) (d : LayerDescriptor) :
  table_entry t r s g p k = Some d -> kind_of d = k.
Proof.
  intros Hd. pose proof (table_entry_rule t r s g p k) as Hk.
  rewrite Hd in Hk. tauto.
Qed.

(** Leaving kinds out of a table leaves their descriptors out of the
    list, and nothing else. *)
Lemma omap_restrict (f f' : LayerKind -> option LayerDescriptor)
    (keep : LayerKind -> bool) (ks : list LayerKind) :
  (forall k d, f k = Some d -> kind_of d = k) ->
  (forall k, f' k = if keep k then f k else None) ->
  omap f' ks = List.filter (fun d => keep (kind_of d)) (omap f ks).
Proof.
  intros Hkind Hf'. induction ks as [| k ks IH]; [reflexivity |].
  cbn. rewrite Hf'. destruct (f k) as [d |] eqn:Hd.
  - cbn. rewrite (Hkind k d Hd).
    destruct (keep k); [f_equal |]; exact IH.
  - destruct (keep k); exact IH.
Qed.

Lemma layers_ext t1 t2 r s g p :
  (forall k, t1 k = t2 k) -> layers t1 r s g p = layers t2 r s g p.
Proof.
  intros Ht. rewrite !layers_table_correct. f_equal. unfold layers_table.
  induction canonical_order as [| k ks IH]; [reflexivity |].
  cbn. rewrite (table_entry_ext t1 t2 r s g p k (Ht k)), IH. reflexivity.
Qed.

(** X10: with every toggle off the composed list is empty, whatever
    data is available. *)
Theorem layers_all_off t r s g p :
  (forall k, t k = false) -> layers t r s g p = Ok [].
Proof.
  intros Hoff. rewrite layers_table_correct. unfold layers_table.
  rewrite omap_canonical_order. unfold table_entry.
  rewrite !Hoff. reflexivity.
Qed.

Lemma table_entry_pulsing t r s g p1 p2 (k : LayerKind) :
  match table_entry t r s g p1 k, table_entry t r s g p2 k with
  | Some d1, Some d2 => same_but_pulsing d1 d2
  | None, None => True
  | _, _ => False
  end
  /\ (k <> conflict -> table_entry t r s g p1 k = table_entry t r s g p2 k).
Proof.
  unfold table_entry.
  destruct (t k); [| auto].
  destruct k; cbn.
  - destruct g; cbn; auto.
  - destruct (AgentResults.geopolitics r); cbn; auto. split; congruence.
  - destruct g, (AgentResults.food_supply r); cbn; auto.
  - destruct (AgentResults.infrastructure r); cbn; auto.
  - destruct (truthy (AgentResults.economy r)
              || truthy (AgentResults.food_supply r)); cbn; auto.
  - destruct (AgentResults.civilian_impact r); cbn; auto.
  - auto.
Qed.

(** X11: the pulsing intensity reaches the conflict descriptor only:
    two compositions that differ in the pulsing intensity alone agree
    position by position except for the pulsing parameter of the
    conflict descriptor, and they are equal when the conflict kind is
    not included. *)
Theorem layers_pulsing_changes_conflict_only t r s g p1 p2 :
  exists l1 l2 : list LayerDescriptor,
    layers t r s g p1 = Ok l1
    /\ layers t r s g p2 = Ok l2
    /\ Forall2 same_but_pulsing l1 l2
    /\ without_kind conflict l1 = without_kind conflict l2
    /\ (inclusion_rule t r g conflict = false -> l1 = l2).
Proof.
  exists (layers_table t r s g p1), (layers_table t r s g p2).
  split; [apply layers_table_correct |].
  split; [apply layers_table_correct |].
  unfold layers_table, without_kind.
  split; [| split].
  - induction canonical_order as [| k ks IH]; cbn; [constructor |].
    destruct (table_entry_pulsing t r s g p1 p2 k) as [Hk _].
    destruct (table_entry t r s g p1 k), (table_entry t r s g p2 k);
      try contradiction; [constructor; assumption | assumption].
  - induction canonical_order as [| k ks IH]; cbn; [reflexivity |].
    pose proof (table_entry_kind t r s g p1 k) as Hk1.
    pose proof (table_entry_kind t r s g p2 k) as Hk2.
    destruct (table_entry_pulsing t r s g p1 p2 k) as [Hk Hsame].
    destruct (decide (k = conflict)) as [-> | Hne].
    + destruct (table_entry t r s g p1 conflict) as [d1 |],
        (table_entry t r s g p2 conflict) as [d2 |];
        try contradiction; [| exact IH].
      cbn. rewrite (Hk1 d1 eq_refl), (Hk2 d2 eq_refl). cbn. exact IH.
    + rewrite (Hsame Hne).
      destruct (table_entry t r s g p2 k); cbn; [| exact IH].
      destruct (decide (kind_of l = conflict)); [exact IH | f_equal; exact IH].
  - intros Hout. rewrite !omap_canonical_order.
    assert (Hc : forall p, table_entry t r s g p conflict = None).
    { intros p. pose proof (table_entry_rule t r s g p conflict) as Hr.
      destruct (table_entry t r s g p conflict);
        [destruct Hr; congruence | reflexivity]. }
    rewrite !Hc.
    repeat match goal with
    | |- context [table_entry t r s g p1 ?k] =>
        rewrite (proj2 (table_entry_pulsing t r s g p1 p2 k))
          by discriminate
    end.
    reflexivity.
Qed.

(** X12: switching one toggle off removes the descriptor of that kind
    from the composed list and leaves every other descriptor, and
    their order, as they were. *)
Theorem layers_switch_off t r s g p (k : LayerKind) :
  exists l : list LayerDescriptor,
    layers t r s g p = Ok l
    /\ layers (switch_off k t) r s g p = Ok (without_kind k l).
Proof.
  exists (layers_table t r s g p).
  split; [apply layers_table_correct |].
  rewrite layers_table_correct. f_equal.
  unfold layers_table, without_kind.
  set (keep := fun k' : LayerKind => if decide (k' = k) then false else true).
  change (omap (table_entry (switch_off k t) r s g p) canonical_order
          = List.filter (fun d => keep (kind_of d))
              (omap (table_entry t r s g p) canonical_order)).
  apply omap_restrict.
  - apply table_entry_kind.
  - intros k'. unfold table_entry, switch_off, keep.
    destruct (decide (k' = k)); reflexivity.
Qed.

(** X13: the reference geometry reaches the choropleth and foodDesert
    kinds only: composing without geometry gives the list composed
    with geometry minus the descriptors of these two kinds. *)
Theorem layers_without_geometry t r s g g0 p :
  truthy g0 = false ->
  exists l : list LayerDescriptor,
    layers t r s g p = Ok l
    /\ layers t r s g0 p
       = Ok (without_kind foodDesert (without_kind choropleth l)).
Proof.
  intros Habsent.
  exists (layers_table t r s g p).
  split; [apply layers_table_correct |].
  rewrite layers_table_correct. f_equal.
  unfold layers_table, without_kind.
  set (keep1 := fun k : LayerKind =>
                  if decide (k = choropleth) then false else true).
  set (keep2 := fun k : LayerKind =>
                  if decide (k = foodDesert) then false else true).
  set (f1 := fun k : LayerKind =>
               if keep1 k then table_entry t r s g p k else None).
  change (omap (table_entry t r s g0 p) canonical_order
          = List.filter (fun d => keep2 (kind_of d))
              (List.filter (fun d => keep1 (kind_of d))
                 (omap (table_entry t r s g p) canonical_order))).
  rewrite <- (omap_restrict (table_entry t r s g p) f1 keep1).
  - apply omap_restrict.
    + intros k d. unfold f1. destruct (keep1 k); [| discriminate].
      apply table_entry_kind.
    + intros k. unfold f1, keep1, keep2, table_entry.
      destruct (t k); [| destruct k; reflexivity].
      destruct k; cbn; try reflexivity; destruct g0; try discriminate;
        reflexivity.
  - apply table_entry_kind.
  - intros k. reflexivity.
Qed.

End ComposerFrames.

Lemma layers_all_off_witness :
  layers (fun _ => false) geopolitics_only (Some "FRA") (Present "world")
    1%float
  = Ok [].
Proof.
  apply (layers_all_off (H := named_schemas)). reflexivity.
Defined.

Lemma layers_without_geometry_witness :
  exists l : list (LayerDescriptor (H := named_schemas)),
    layers all_on geopolitics_only None (Present "world") 1%float = Ok l
    /\ layers all_on geopolitics_only None Undefined 1%float
       = Ok (without_kind foodDesert (without_kind choropleth l)).
Proof.
  apply (layers_without_geometry (H := named_schemas)). reflexivity.
Defined.

(** * Further properties of the memoization *)

Lemma Object_is_eq (a b : Dep) : Object_is a b = true -> a = b.
Proof.
  destruct a, b; cbn; try discriminate; try reflexivity; intros Heq.
  - apply Nat.eqb_eq in Heq. congruence.
  - apply String.eqb_eq in Heq. congruence.
  - apply FloatAxioms.Leibniz.eqb_spec in Heq. congruence.
Qed.

Lemma areHookInputsEqual_eq (nextDeps prevDeps : list Dep) :
  areHookInputsEqual nextDeps prevDeps = true -> nextDeps = prevDeps.
Proof.
  revert prevDeps.
  induction nextDeps as [| a nextDeps IH]; intros [| b prevDeps]; cbn;
    try discriminate; [reflexivity |].
  intros Heq. apply andb_prop in Heq. destruct Heq as [Hab Hrest].
  f_equal; [apply Object_is_eq, Hab | apply IH, Hrest].
Qed.

Section MemoFrames.
Context `{Schemas}.

(** X5: the animation defeats the memoization: every tick changes the
    pulsing scalar, so the dependency array of the render after a tick
    never equals the remembered one, and [useMemo] runs the composer
    again on every animation frame, whatever the props are. *)
Theorem pulsing_tick_reruns_composer (n : nat) (fiber : Fiber)
    (cell : MemoCell) (props0 props : MapViewProps) :
  memoizedState fiber = Some cell ->
  memo_deps cell = layers_deps props0 (pulsingRadius_after n) ->
  areHookInputsEqual (layers_deps props (pulsingRadius_after (S n)))
    (memo_deps cell) = false
  /\ useMemo props (pulsingRadius_after (S n)) fiber
     = mountMemo props (pulsingRadius_after (S n)) fiber.
Proof.
  intros Hcell Hdeps.
  assert (Hmiss : areHookInputsEqual
                    (layers_deps props (pulsingRadius_after (S n)))
                    (memo_deps cell) = false).
  { rewrite Hdeps. unfold layers_deps. cbn [areHookInputsEqual Object_is].
    rewrite pulsingRadius_tick_changes. rewrite !andb_false_r. reflexivity. }
  split; [exact Hmiss |].
  unfold useMemo. rewrite Hcell, Hmiss. reflexivity.
Qed.

Lemma dep_of_string_inj (s1 s2 : option string) :
  dep_of_string s1 = dep_of_string s2 -> s1 = s2.
Proof. destruct s1, s2; cbn; congruence. Qed.

Lemma layers_of_props_same_deps (props0 props : MapViewProps)
    (pulse0 pulse : float) :
  unmutated props0 props ->
  layers_deps props pulse = layers_deps props0 pulse0 ->
  layers_of_props props pulse = layers_of_props props0 pulse0.
Proof.
  intros (Htoggles & Hresults & Hgeo) Hdeps.
  unfold layers_deps in Hdeps.
  injection Hdeps as Ht Hr Hs Hg Hp.
  apply dep_of_string_inj in Hs.
  unfold layers_of_props.
  rewrite (layers_ext _ _ _ _ _ _ (Htoggles Ht)), (Hresults Hr), Hs, Hp.
  f_equal.
  destruct (countriesGeoJSON props) as [| | o] eqn:Hgeo1,
    (countriesGeoJSON props0) as [| | o0] eqn:Hgeo0; cbn in *;
    try discriminate; try reflexivity.
  f_equal. apply (Hgeo o o0 eq_refl eq_refl). congruence.
Qed.

(** X14: the memoization is transparent as long as props are not
    mutated in place: if the hook remembers the list composed for the
    previous props, and every object of the new props that has the
    identity of a previous one has its content, then the list
    [useMemo] returns holds exactly what the composer returns for the
    new props, and the hook then remembers that list for them. *)
Theorem useMemo_returns_current_layers (fiber : Fiber) (cell : MemoCell)
    (props0 props : MapViewProps) (pulse0 pulse : float) :
  memoizedState fiber = Some cell ->
  cell_of cell props0 pulse0 ->
  unmutated props0 props ->
  exists value fiber' cell',
    useMemo props pulse fiber = Ok (value, fiber')
    /\ layers_of_props props pulse = Ok (map val value)
    /\ memoizedState fiber' = Some cell'
    /\ memo_value cell' = value
    /\ cell_of cell' props pulse.
Proof.
  intros Hcell [Hdeps Hvalue] Hunmutated.
  unfold useMemo. rewrite Hcell.
  destruct (areHookInputsEqual (layers_deps props pulse) (memo_deps cell))
    eqn:Hhit.
  - apply areHookInputsEqual_eq in Hhit.
    assert (Hsame : layers_of_props props pulse
                    = Ok (map val (memo_value cell))).
    { rewrite <- Hvalue. apply layers_of_props_same_deps; [assumption |].
      congruence. }
    exists (memo_value cell), fiber, cell.
    repeat split; auto.
  - destruct (mountMemo_fresh props pulse fiber)
      as (value & fiber' & Hrun & _ & Hstate & Hval).
    assert (Hnow : layers_of_props props pulse = Ok (map val value)).
    { unfold layers_of_props. rewrite layers_table_correct, Hval.
      reflexivity. }
    exists value, fiber', {| memo_value := value;
                             memo_deps := layers_deps props pulse |}.
    repeat split; auto.
Qed.

End MemoFrames.

Lemma pulsing_tick_reruns_composer_witness :
  useMemo props_second (pulsingRadius_after 1) fiber_first
  = mountMemo props_second (pulsingRadius_after 1) fiber_first.
Proof.
  apply (pulsing_tick_reruns_composer 0 fiber_first _ props_first props_second
           eq_refl eq_refl).
Defined.

Lemma useMemo_returns_current_layers_witness :
  exists value fiber' cell',
    useMemo props_second 1%float fiber_first = Ok (value, fiber')
    /\ layers_of_props props_second 1%float = Ok (map val value)
    /\ memoizedState fiber' = Some cell'
    /\ memo_value cell' = value
    /\ cell_of cell' props_second 1%float.
Proof.
  apply (useMemo_returns_current_layers fiber_first _ props_first props_second
           1%float 1%float eq_refl).
  - split; reflexivity.
  - split; [| split].
    + cbn. discriminate.
    + reflexivity.
    + cbn. discriminate.
Defined.

(** * Determinism of the memoized composition *)

Section Determinism.
Context `{Schemas}.





End Determinism.



